(** * The todo page of altschool-nextjs-todo: view-model and ordered view

    A shallow embedding of [src/app/page.tsx] (the [AppPage] component):
    the [Todo] data model, the React state of the component, the snapshot
    listener, the four write handlers ([addTodo], [removeTodo],
    [toggleDone], [updateContent]) and the derived list [todosAsc].

    Also covered: the mount effect with the authentication listener and
    the display name kept in [localStorage], the guard of the snapshot
    effect, the local edit of an item while typing, and the two decisions
    of the rendering that depend on the state (the colour of the status
    badge and the empty-list message).  The rest of the markup and the
    styling are outside this development. *)

From Stdlib Require Import ZArith NArith List Permutation Lia.
From stdpp Require Import base option list sorting gmap strings.

Open Scope Z_scope.

(** ** JavaScript strings

    A JavaScript string is a sequence of UTF-16 code units.  Literals of
    the source are ASCII and are written as Rocq strings. *)

Module JS.

Definition jsstring := list N.

Definition lit (s : string) : jsstring :=
  map Ascii.N_of_ascii (String.list_ascii_of_string s).

(** [WhiteSpace] and [LineTerminator] code points of ECMAScript, the
    characters [String.prototype.trim] strips. *)
Definition isWhiteSpace (c : N) : bool :=
  ((9 <=? c) && (c <=? 13) ||
   (c =? 32) || (c =? 160) || (c =? 5760) ||
   (8192 <=? c) && (c <=? 8202) ||
   (c =? 8232) || (c =? 8233) || (c =? 8239) || (c =? 8287) ||
   (c =? 12288) || (c =? 65279))%N.

Fixpoint trimStart (s : jsstring) : jsstring :=
  match s with
  | [] => []
  | c :: s' => if isWhiteSpace c then trimStart s' else s
  end.

Definition trimEnd (s : jsstring) : jsstring :=
  rev (trimStart (rev s)).

(** [s.trim()] *)
Definition trim (s : jsstring) : jsstring := trimEnd (trimStart s).

(** A string is falsy exactly when it is empty. *)
Definition truthy (s : jsstring) : bool :=
  match s with [] => false | _ :: _ => true end.

(** Empty or made of white space only. *)
Definition blank (s : jsstring) : bool := forallb isWhiteSpace s.

(** [a === b] on strings. *)
Definition strictEq (a b : jsstring) : bool := bool_decide (a = b).

End JS.

Import JS.

(** ** Data model *)

(** [type Category = 'business' | 'personal'] *)
Inductive Category := business | personal.

Definition categoryString (c : Category) : jsstring :=
  match c with
  | business => lit "business"
  | personal => lit "personal"
  end.

(** [createdAt: Timestamp | FieldValue | { seconds; nanoseconds } | null |
    undefined].  A [Timestamp] and the plain object both carry [seconds]
    and [nanoseconds]; Firestore keeps both as integers, so they are in [Z]
    and the subtraction of the comparator below is exact. *)
Inductive CreatedAt :=
| TimestampAt (seconds nanoseconds : Z)
| FieldValueAt
| NullAt
| UndefinedAt.

Record Todo := mkTodo {
  id : jsstring;
  content : jsstring;
  category : Category;
  done : bool;
  createdAt : CreatedAt;
  createdBy : option jsstring
}.

(** ** Derived state: the list sorted by creation time *)

(** [(x as Timestamp)?.seconds]: [undefined] on [null] and [undefined], and
    on a [FieldValue], which has no such property. *)
Definition secondsOf (c : CreatedAt) : option Z :=
  match c with
  | TimestampAt s _ => Some s
  | FieldValueAt => None
  | NullAt => None
  | UndefinedAt => None
  end.

(** [v || 0] on [number | undefined]: [0] and [undefined] are falsy. *)
Definition orZero (v : option Z) : Z :=
  match v with
  | Some n => if n =? 0 then 0 else n
  | None => 0
  end.

Definition timeOf (t : Todo) : Z := orZero (secondsOf (createdAt t)).

(** The comparator of [todosAsc]: [timeA - timeB]. *)
Definition compareCreatedAt (a b : Todo) : Z := timeOf a - timeOf b.

(** [Array.prototype.sort(comparefn)].  ECMAScript requires the sort to be
    stable and to order by the sign of [comparefn]; which algorithm runs is
    left to the engine.  The model is a stable insertion sort: an element
    moves past a later one only when [comparefn] says it is greater. *)
Section ArraySort.
Context {A : Type} (comparefn : A -> A -> Z).

Fixpoint sortInsert (x : A) (l : list A) : list A :=
  match l with
  | [] => [x]
  | y :: l' =>
      if comparefn x y <=? 0 then x :: y :: l' else y :: sortInsert x l'
  end.

Fixpoint arraySort (l : list A) : list A :=
  match l with
  | [] => []
  | x :: l' => sortInsert x (arraySort l')
  end.
End ArraySort.

(** [todosAsc], on the contents of the copied array. *)
Definition todosAsc (todos : list Todo) : list Todo :=
  arraySort compareCreatedAt todos.

(** *** Arrays as objects

    [[...todos].sort(cmp)] allocates a new array and sorts that one in
    place.  Arrays live in a store and are named by their address. *)
Abbreviation heap := (gmap positive (list Todo)).

(** [[...a]] *)
Definition spread (h : heap) (a : positive) : option (positive * heap) :=
  match h !! a with
  | Some xs => let c := fresh (dom h) in Some (c, <[c := xs]> h)
  | None => None
  end.

(** [a.sort(cmp)]: sorts in place and returns the same array. *)
Definition sortInPlace (cmp : Todo -> Todo -> Z) (h : heap) (a : positive)
  : option (positive * heap) :=
  match h !! a with
  | Some xs => Some (a, <[a := arraySort cmp xs]> h)
  | None => None
  end.

Definition todosAscHeap (h : heap) (todos : positive)
  : option (positive * heap) :=
  match spread h todos with
  | Some (c, h1) => sortInPlace compareCreatedAt h1 c
  | None => None
  end.

(** *** What the specification says of the ordered view *)

(** The sort key in the specification's words: the seconds of a resolved
    marker, [0] when the marker is unresolved or absent. *)
Definition specKey (t : Todo) : Z :=
  match createdAt t with
  | TimestampAt s _ => s
  | _ => 0
  end.

Definition resolved (t : Todo) : bool :=
  match createdAt t with
  | TimestampAt _ _ => true
  | _ => false
  end.

(** [l'] is the stable sort of [l] ascending by [key]: it is ordered by
    [key], and for each key value it holds the same items in the same order
    as [l]. *)
Definition byKey {A} (key : A -> Z) (a b : A) : Prop := key a <= key b.

Definition StableSortBy {A} (key : A -> Z) (l l' : list A) : Prop :=
  Sorted (byKey key) l' /\
  forall k, filter (fun a => key a = k) l' = filter (fun a => key a = k) l.

(** The resolved markers of a list, in order, as (seconds, nanoseconds). *)
Definition markerOf (t : Todo) : option (Z * Z) :=
  match createdAt t with
  | TimestampAt s n => Some (s, n)
  | _ => None
  end.

Definition resolvedMarkers (l : list Todo) : list (Z * Z) := omap markerOf l.

(** Order of markers with their sub-second part. *)
Definition markerLe (a b : Z * Z) : Prop :=
  a.1 < b.1 \/ (a.1 = b.1 /\ a.2 <= b.2).

(** Every item without a resolved marker comes before every item with one. *)
Definition UnresolvedFirst (l : list Todo) : Prop :=
  forall i j a b,
    l !! i = Some a -> l !! j = Some b ->
    resolved a = false -> resolved b = true -> (i < j)%nat.

(** ** Component state *)

Record State := mkState {
  name : jsstring;
  todos : list Todo;
  inputContent : jsstring;
  inputCategory : Category;
  userId : option jsstring;
  syncStatus : jsstring
}.

Definition setTodos (v : list Todo) (st : State) : State :=
  mkState (name st) v (inputContent st) (inputCategory st) (userId st)
    (syncStatus st).

Definition setInputContent (v : jsstring) (st : State) : State :=
  mkState (name st) (todos st) v (inputCategory st) (userId st)
    (syncStatus st).

Definition setInputCategory (v : Category) (st : State) : State :=
  mkState (name st) (todos st) (inputContent st) v (userId st)
    (syncStatus st).

Definition setUserId (v : option jsstring) (st : State) : State :=
  mkState (name st) (todos st) (inputContent st) (inputCategory st) v
    (syncStatus st).

Definition setSyncStatus (v : jsstring) (st : State) : State :=
  mkState (name st) (todos st) (inputContent st) (inputCategory st)
    (userId st) v.

(** ** The snapshot listener *)

(** [doc.data() as Omit<Todo, 'id'>]: the fields of a document.  The cast
    does not remove anything: a document that has a field named [id] still
    carries it ([dataId]). *)
Record TodoData := mkTodoData {
  dataId : option jsstring;
  dataContent : jsstring;
  dataCategory : Category;
  dataDone : bool;
  dataCreatedAt : CreatedAt;
  dataCreatedBy : option jsstring
}.

Record DocSnapshot := mkDoc {
  docId : jsstring;
  docData : TodoData
}.

(** [{ id: doc.id, ...doc.data() }]: the spread comes second, so a data
    field named [id] replaces the identifier of the document. *)
Definition todoOfDoc (d : DocSnapshot) : Todo :=
  mkTodo
    (match dataId (docData d) with
     | Some i => i
     | None => docId d
     end)
    (dataContent (docData d)) (dataCategory (docData d))
    (dataDone (docData d)) (dataCreatedAt (docData d))
    (dataCreatedBy (docData d)).

(** The two callbacks given to [onSnapshot].  [now] is what
    [new Date().toLocaleTimeString()] returns when the snapshot arrives. *)
Definition onSnapshotNext (docs : list DocSnapshot) (now : jsstring)
    (st : State) : State :=
  let todosData := map todoOfDoc docs in
  setSyncStatus (lit "Synced (" ++ now ++ lit ")") (setTodos todosData st).

Definition onSnapshotError (st : State) : State :=
  setSyncStatus (lit "Sync Error. Check console.") st.

Inductive SnapshotEvent :=
| SnapshotNext (docs : list DocSnapshot) (now : jsstring)
| SnapshotFailed.

Definition onSnapshot (ev : SnapshotEvent) (st : State) : State :=
  match ev with
  | SnapshotNext docs now => onSnapshotNext docs now st
  | SnapshotFailed => onSnapshotError st
  end.

(** The listener run on the events of a subscription, oldest first. *)
Definition deliver (evs : list SnapshotEvent) (st : State) : State :=
  foldl (fun s ev => onSnapshot ev s) st evs.

(** ** Local edits of the form and of the list *)

(** [onChange] of the creation form. *)
Definition onInputContentChange (value : jsstring) (st : State) : State :=
  setInputContent value st.

(** [onChange] of an item's text field: the local copy follows the typing. *)
Definition onTodoContentChange (todoId value : jsstring) (st : State)
  : State :=
  setTodos
    (map (fun t =>
            if strictEq (id t) todoId
            then mkTodo (id t) value (category t) (done t) (createdAt t)
                   (createdBy t)
            else t)
       (todos st))
    st.

(** ** Remote writes *)

Inductive FieldValue :=
| VString (s : jsstring)
| VBool (b : bool)
| VNull
| VServerTimestamp.

Record DocRef := mkDocRef {
  refPath : list jsstring;
  refId : jsstring
}.

Inductive RemoteCall :=
| SetDoc (ref : DocRef) (data : gmap string FieldValue) (merge : bool)
| DeleteDoc (ref : DocRef).

(** How the promise of a write settles. *)
Inductive WriteResult :=
| Fulfilled
| Rejected (error : jsstring).

(** What a handler does besides calling the store. *)
Inductive Action :=
| SetInputContent (v : jsstring)
| SetSyncStatus (v : jsstring)
| ConsoleError (label : jsstring) (error : jsstring).

Definition applyAction (a : Action) (st : State) : State :=
  match a with
  | SetInputContent v => setInputContent v st
  | SetSyncStatus v => setSyncStatus v st
  | ConsoleError _ _ => st
  end.

(** An [async] handler: it returns, ends on an exception nothing catches,
    performs an action and goes on, or awaits a write and goes on with how
    the write settled. *)
Inductive Task :=
| Return
| Throw (error : jsstring)
| Do (a : Action) (k : Task)
| Await (c : RemoteCall) (k : WriteResult -> Task).

(** Runs a handler against a store that settles each write as [remote]
    says; [st] is the component state while the handler completes.  The
    result is the state left and the calls issued, in order. *)
Fixpoint exec (remote : RemoteCall -> WriteResult) (t : Task) (st : State)
  : State * list RemoteCall :=
  match t with
  | Return => (st, [])
  | Throw _ => (st, [])
  | Do a k => exec remote k (applyAction a st)
  | Await c k =>
      let r := exec remote (k (remote c)) st in
      (r.1, c :: r.2)
  end.

(** The [content] a call writes, when it writes one. *)
Definition writtenContent (c : RemoteCall) : option FieldValue :=
  match c with
  | SetDoc _ data _ => data !! "content"%string
  | DeleteDoc _ => None
  end.

Fixpoint startsWith (sub s : jsstring) : bool :=
  match sub, s with
  | [], _ => true
  | _ :: _, [] => false
  | c :: sub', d :: s' => (c =? d)%N && startsWith sub' s'
  end.

(** [s.includes(sub)] *)
Fixpoint includes (s sub : jsstring) : bool :=
  startsWith sub s ||
  match s with
  | [] => false
  | _ :: s' => includes s' sub
  end.

(** *** Document references

    [doc(collection, path)] of the Firestore SDK.  It refuses an empty
    path and a path containing [//]; it splits the path at [/], dropping
    empty segments, appends the segments to the path of the collection and
    refuses the result unless it has an even number of segments.  The
    reference it returns has the last segment as identifier and the others
    as the path of its collection.  [None] stands for the exception. *)
Fixpoint splitSlash (s : jsstring) : list jsstring :=
  match s with
  | [] => [[]]
  | c :: s' =>
      if (c =? 47)%N then [] :: splitSlash s'
      else
        match splitSlash s' with
        | seg :: rest => (c :: seg) :: rest
        | [] => [[c]]
        end
  end.

Definition pathSegments (path : jsstring) : list jsstring :=
  List.filter truthy (splitSlash path).

Definition docIn (col : list jsstring) (path : jsstring) : option DocRef :=
  if negb (truthy path) then None
  else if includes path (lit "//") then None
  else
    let full := col ++ pathSegments path in
    if Nat.even (length full)
    then Some (mkDocRef (removelast full) (List.last full []))
    else None.

(** What [console.error] is given when [doc] throws. *)
Definition invalidArgument : jsstring := lit "invalid-argument".

Inductive Firestore := FirestoreInstance.

Definition appId : jsstring := lit "nextjs-todo-app".

Section Handlers.

(** [db] exported by [firebase/config]: the initialised store, or nothing
    when the configuration is missing. *)
Variable firestoreDb : option Firestore.

Definition getTodosCollectionRef : option (list jsstring) :=
  match firestoreDb with
  | None => None
  | Some _ =>
      Some [lit "artifacts"; appId; lit "public"; lit "data"; lit "todos"]
  end.

(** The handlers read the state [st] of the render they were created in.
    [autoId] is the identifier [doc(todosColRef)] generates. *)
Definition addTodo (autoId : jsstring) (st : State) : Task :=
  if negb (truthy (trim (inputContent st)))
     || negb (truthy (categoryString (inputCategory st)))
     || negb (bool_decide (is_Some firestoreDb))
  then Return
  else
    match getTodosCollectionRef with
    | None => Return
    | Some todosColRef =>
        let newDocRef := mkDocRef todosColRef autoId in
        Await
          (SetDoc newDocRef
             (<["content"%string := VString (trim (inputContent st))]>
              (<["category"%string :=
                   VString (categoryString (inputCategory st))]>
               (<["done"%string := VBool false]>
                (<["createdAt"%string := VServerTimestamp]>
                 (<["createdBy"%string :=
                      match userId st with
                      | Some uid => VString uid
                      | None => VNull
                      end]> ∅)))))
             false)
          (fun r =>
             match r with
             | Fulfilled => Do (SetInputContent []) Return
             | Rejected error =>
                 Do (ConsoleError (lit "Error adding todo:") error)
                   (Do (SetSyncStatus
                          (lit "Failed to add todo. Check console."))
                      Return)
             end)
    end.

Definition removeTodo (todoId : jsstring) : Task :=
  if negb (bool_decide (is_Some firestoreDb)) then Return
  else
    match getTodosCollectionRef with
    | None => Return
    | Some todosColRef =>
        (* [doc(todosColRef, todoId)] is evaluated inside the [try] *)
        match docIn todosColRef todoId with
        | None =>
            Do (ConsoleError (lit "Error deleting todo:") invalidArgument)
              (Do (SetSyncStatus
                     (lit "Failed to delete todo. Check console."))
                 Return)
        | Some todoRef =>
            Await (DeleteDoc todoRef)
              (fun r =>
                 match r with
                 | Fulfilled => Return
                 | Rejected error =>
                     Do (ConsoleError (lit "Error deleting todo:") error)
                       (Do (SetSyncStatus
                              (lit "Failed to delete todo. Check console."))
                          Return)
                 end)
        end
    end.

Definition toggleDone (todo : Todo) : Task :=
  if negb (bool_decide (is_Some firestoreDb)) then Return
  else
    match getTodosCollectionRef with
    | None => Return
    | Some todosColRef =>
        (* [doc(todosColRef, todo.id)] is evaluated before the [try] *)
        match docIn todosColRef (id todo) with
        | None => Throw invalidArgument
        | Some todoRef =>
            Await
              (SetDoc todoRef
                 (<["done"%string := VBool (negb (done todo))]> ∅) true)
              (fun r =>
                 match r with
                 | Fulfilled => Return
                 | Rejected error =>
                     Do (ConsoleError
                           (lit "Error updating todo done status:") error)
                       (Do (SetSyncStatus
                              (lit
                                 "Failed to update todo status. Check console."))
                          Return)
                 end)
        end
    end.

Definition updateContent (todoId newContent : jsstring) : Task :=
  if negb (bool_decide (is_Some firestoreDb))
     || negb (truthy (trim newContent))
  then Return
  else
    match getTodosCollectionRef with
    | None => Return
    | Some todosColRef =>
        (* [doc(todosColRef, todoId)] is evaluated before the [try] *)
        match docIn todosColRef todoId with
        | None => Throw invalidArgument
        | Some todoRef =>
            Await
              (SetDoc todoRef
                 (<["content"%string := VString (trim newContent)]> ∅)
                 true)
              (fun r =>
                 match r with
                 | Fulfilled => Return
                 | Rejected error =>
                     Do (ConsoleError (lit "Error updating todo content:")
                           error)
                       (Do (SetSyncStatus
                              (lit
                                 "Failed to update todo content. Check console."))
                          Return)
                 end)
        end
    end.

(** The write operations the page offers. *)
Inductive Intent :=
| Add (autoId : jsstring)
| Remove (todoId : jsstring)
| Toggle (todo : Todo)
| EditContent (todoId newContent : jsstring).

Definition handler (i : Intent) (st : State) : Task :=
  match i with
  | Add autoId => addTodo autoId st
  | Remove todoId => removeTodo todoId
  | Toggle todo => toggleDone todo
  | EditContent todoId newContent => updateContent todoId newContent
  end.

End Handlers.

(** The status each operation reports when its write fails. *)
Definition failureStatus (i : Intent) : jsstring :=
  match i with
  | Add _ => lit "Failed to add todo. Check console."
  | Remove _ => lit "Failed to delete todo. Check console."
  | Toggle _ => lit "Failed to update todo status. Check console."
  | EditContent _ _ => lit "Failed to update todo content. Check console."
  end.

(** ** Definitions used by the statements below *)

(** Two items created within the same second, the later one delivered
    first. *)
Definition sameSecondTodos : list Todo :=
  [ mkTodo (lit "b") (lit "second") personal false
      (TimestampAt 1700000000 900000000) None;
    mkTodo (lit "a") (lit "first") personal false
      (TimestampAt 1700000000 100000000) None ].

(** A collection with an item still waiting for its marker, an item stamped
    at the epoch and an item stamped one second before it. *)
Definition epochTodos : list Todo :=
  [ mkTodo (lit "r0") (lit "epoch") business true (TimestampAt 0 0) None;
    mkTodo (lit "u") (lit "pending") personal false NullAt None;
    mkTodo (lit "r1") (lit "before epoch") business false
      (TimestampAt (-1) 0) None ].

Definition pendingThenStamped : list Todo :=
  [ mkTodo (lit "r") (lit "stamped") business false
      (TimestampAt 1700000000 0) None;
    mkTodo (lit "u") (lit "pending") personal false FieldValueAt None ].

(** The create the specification describes for the content typed, the
    category selected and the session identifier. *)
Definition specCreate (autoId content : jsstring) (c : Category)
    (session : option jsstring) : RemoteCall :=
  SetDoc
    (mkDocRef
       [lit "artifacts"; appId; lit "public"; lit "data"; lit "todos"]
       autoId)
    (<["content"%string := VString (trim content)]>
     (<["category"%string := VString (categoryString c)]>
      (<["done"%string := VBool false]>
       (<["createdAt"%string := VServerTimestamp]>
        (<["createdBy"%string :=
             match session with Some uid => VString uid | None => VNull end]>
         ∅)))))
    false.

(** The add operation issues exactly that create, whatever the store
    answers and whatever the state is when it answers. *)
Definition AddIssuesCreate (db : option Firestore) (autoId : jsstring)
    (st : State) : Prop :=
  forall remote st1,
    (exec remote (addTodo db autoId st) st1).2
    = [specCreate autoId (inputContent st) (inputCategory st) (userId st)].

Definition blankInputState : State :=
  mkState (lit "Ada") [] (lit "   ") personal (Some (lit "uid-1"))
    (lit "Authenticated. Ready for sync.").

Definition oneItemState : State :=
  mkState (lit "Ada")
    [ mkTodo (lit "doc-1") (lit "buy milk") business false
        (TimestampAt 1700000000 0) (Some (lit "uid-1")) ]
    [] personal (Some (lit "uid-1")) (lit "Synced (10:00:00)").

Definition milkState : State :=
  mkState (lit "Ada") [] (lit " buy milk ") business (Some (lit "uid-1"))
    (lit "Authenticated. Ready for sync.").

(** An item that is a document of a snapshot: it has the fields of the
    document's data, and the identifier of the document unless the data
    has a field [id] of its own, which then takes its place. *)
Definition CarriesDoc (d : DocSnapshot) (t : Todo) : Prop :=
  content t = dataContent (docData d) /\
  category t = dataCategory (docData d) /\
  done t = dataDone (docData d) /\
  createdAt t = dataCreatedAt (docData d) /\
  createdBy t = dataCreatedBy (docData d) /\
  (dataId (docData d) = None -> id t = docId d) /\
  (forall i, dataId (docData d) = Some i -> id t = i).

(** An identifier that is one path segment: not empty and without [/]. *)
Definition oneSegment (s : jsstring) : bool :=
  truthy s && forallb (fun c => negb (c =? 47)%N) s.

(** What a handler leaves and issues when the store settles writes as
    [remote] says and the component state is [st1] when it completes. *)
Definition outcome (db : option Firestore) (i : Intent) (st : State)
    (remote : RemoteCall -> WriteResult) (st1 : State)
  : State * list RemoteCall :=
  exec remote (handler db i st) st1.

(** ** Mount effect, authentication and the stored name *)

Definition setName (v : jsstring) (st : State) : State :=
  mkState v (todos st) (inputContent st) (inputCategory st) (userId st)
    (syncStatus st).

(** The values [useState] starts from. *)
Definition initialState : State :=
  mkState [] [] [] personal None (lit "Initializing...").

Inductive Auth := AuthInstance.

(** [onChange] of the name field. *)
Definition onNameChange (value : jsstring) (st : State) : State :=
  setName value st.

(** The effect run once on mount.  [firebaseAuth] is [auth] of
    [firebase/config]; [storedName] is [localStorage.getItem('name')].  The
    boolean tells whether the authentication listener was registered. *)
Definition mountEffect (firebaseAuth : option Auth)
    (storedName : option jsstring) (st : State) : State * bool :=
  match firebaseAuth with
  | None =>
      (setSyncStatus (lit "Error: Firebase Auth not configured.") st, false)
  | Some _ =>
      (match storedName with
       | Some n => if truthy n then setName n st else st
       | None => st
       end, true)
  end.

(** The callback given to [onAuthStateChanged]; the boolean tells whether
    [signIn()] was called. *)
Definition onAuthStateChanged (user : option jsstring) (st : State)
  : State * bool :=
  match user with
  | Some uid =>
      (setSyncStatus (lit "Authenticated. Ready for sync.")
         (setUserId (Some uid) st), false)
  | None => (st, true)
  end.

(** [signIn], once [signInAnonymously] has settled. *)
Definition signInSettled (r : WriteResult) (st : State) : State :=
  match r with
  | Fulfilled => st
  | Rejected _ => setSyncStatus (lit "Auth Error. Check console.") st
  end.

(** The effect watching [name]: what [localStorage] holds under ['name']
    after it ran, given what it held before. *)
Definition nameEffect (st : State) (stored : option jsstring)
  : option jsstring :=
  if truthy (name st) then Some (name st) else stored.

(** The guard of the snapshot effect: whether [onSnapshot] is subscribed
    for this state.  [!userId] holds for [null] and for the empty string. *)
Definition snapshotEffectSubscribes (db : option Firestore) (st : State)
  : bool :=
  if negb (bool_decide (is_Some db))
     || negb (match userId st with Some u => truthy u | None => false end)
  then false
  else
    match getTodosCollectionRef db with
    | None => false
    | Some _ => true
    end.

(** ** Decisions of the rendering *)

(** The colour classes of the status badge. *)
Definition badgeClass (status : jsstring) : jsstring :=
  if includes status (lit "Synced") then lit "bg-green-100 text-green-700"
  else if includes status (lit "Error") then lit "bg-red-100 text-red-700"
  else lit "bg-yellow-100 text-yellow-700".

(** [todosAsc.length === 0]: the empty-list message replaces the list. *)
Definition showsEmptyMessage (st : State) : bool :=
  (length (todosAsc (todos st)) =? 0)%nat.

(** ** Reading a call *)

(** The document a call addresses. *)
Definition callRef (c : RemoteCall) : DocRef :=
  match c with
  | SetDoc ref _ _ => ref
  | DeleteDoc ref => ref
  end.

(** The [merge] option and the fields of a [setDoc]. *)
Definition callShape (c : RemoteCall) : option (bool * gset string) :=
  match c with
  | SetDoc _ data merge => Some (merge, dom data)
  | DeleteDoc _ => None
  end.

(** The document an operation is about. *)
Definition intentTarget (i : Intent) : jsstring :=
  match i with
  | Add autoId => autoId
  | Remove todoId => todoId
  | Toggle todo => id todo
  | EditContent todoId _ => todoId
  end.

Definition todosPath : list jsstring :=
  [lit "artifacts"; lit "nextjs-todo-app"; lit "public"; lit "data";
   lit "todos"].

(** An item as the typing handler leaves it. *)
Definition typedOver (todoId value : jsstring) (t t' : Todo) : Prop :=
  id t' = id t /\ category t' = category t /\ done t' = done t /\
  createdAt t' = createdAt t /\ createdBy t' = createdBy t /\
  content t' = if bool_decide (id t = todoId) then value else content t.

Definition twoItemState : State :=
  mkState (lit "Ada")
    [ mkTodo (lit "doc-1") (lit "buy milk") business false
        (TimestampAt 1700000000 0) (Some (lit "uid-1"));
      mkTodo (lit "doc-2") (lit "call Bob") personal true
        (TimestampAt 1700000100 0) (Some (lit "uid-2")) ]
    [] personal (Some (lit "uid-1")) (lit "Synced (10:00:00)").

(** ** Trimming *)

Section TrimFacts.

Lemma trimStart_blank s : blank s = true -> trimStart s = [].
Proof.
  induction s as [|c s IH]; simpl; [done|].
  intros [Hc Hs]%andb_prop. rewrite Hc. by apply IH.
Qed.

Lemma trimStart_nil_blank s : trimStart s = [] -> blank s = true.
Proof.
  induction s as [|c s IH]; simpl; [done|].
  destruct (isWhiteSpace c); simpl; [exact IH | discriminate].
Qed.

Lemma blank_app s1 s2 : blank (s1 ++ s2) = blank s1 && blank s2.
Proof. apply forallb_app. Qed.

Lemma blank_rev s : blank (rev s) = blank s.
Proof.
  induction s as [|c s IH]; simpl; [done|].
  rewrite blank_app, IH. simpl. rewrite andb_true_r. apply andb_comm.
Qed.

(** What [trimStart] returns is either empty or starts with a character
    that is not white space, and it is a suffix of its argument. *)
Lemma trimStart_spec s :
  exists ws, s = ws ++ trimStart s /\ blank ws = true /\
    match trimStart s with
    | [] => True
    | c :: _ => isWhiteSpace c = false
    end.
Proof.
  induction s as [|c s (ws & Heq & Hws & Hhd)]; simpl.
  - by exists [].
  - destruct (isWhiteSpace c) eqn:Hc.
    + exists (c :: ws). simpl. rewrite Hc, Hws. by rewrite <- Heq.
    + by exists [].
Qed.

Lemma trimStart_head_id c s :
  isWhiteSpace c = false -> trimStart (c :: s) = c :: s.
Proof. simpl. by intros ->. Qed.

Lemma trimStart_idem s : trimStart (trimStart s) = trimStart s.
Proof.
  destruct (trimStart_spec s) as (_ & _ & _ & Hhd).
  destruct (trimStart s) as [|c r]; [done|]. by apply trimStart_head_id.
Qed.

Lemma trim_blank s : blank s = true -> trim s = [].
Proof. intros H. unfold trim. by rewrite (trimStart_blank s H). Qed.

Lemma trim_nil_blank s : trim s = [] -> blank s = true.
Proof.
  unfold trim, trimEnd. intros H.
  assert (Hr : trimStart (rev (trimStart s)) = []).
  { apply (f_equal (@rev N)) in H. by rewrite rev_involutive in H. }
  apply trimStart_nil_blank in Hr. rewrite blank_rev in Hr.
  destruct (trimStart_spec s) as (ws & Heq & Hws & _).
  rewrite Heq, blank_app, Hws. exact Hr.
Qed.

Lemma truthy_trim s : truthy (trim s) = negb (blank s).
Proof.
  destruct (blank s) eqn:Hb.
  - by rewrite (trim_blank s Hb).
  - destruct (trim s) eqn:Ht; [|done].
    apply trim_nil_blank in Ht. congruence.
Qed.

(** The trimmed string neither starts nor ends with white space. *)
Lemma trim_first s c r : trim s = c :: r -> isWhiteSpace c = false.
Proof.
  unfold trim, trimEnd.
  destruct (trimStart_spec s) as (_ & _ & _ & Hhd).
  destruct (trimStart s) as [|d t] eqn:Hts; [done|].
  destruct (trimStart_spec (rev (d :: t))) as (ws & Heq & Hws & _).
  intros H.
  apply (f_equal (@rev N)) in Heq. rewrite rev_involutive, rev_app_distr in Heq.
  rewrite H in Heq. simpl in Heq. injection Heq as -> _. exact Hhd.
Qed.

Lemma trim_last s r c : trim s = r ++ [c] -> isWhiteSpace c = false.
Proof.
  unfold trim, trimEnd. intros H.
  apply (f_equal (@rev N)) in H. rewrite rev_involutive, rev_app_distr in H.
  simpl in H.
  destruct (trimStart_spec (rev (trimStart s))) as (_ & _ & _ & Hhd).
  by rewrite H in Hhd.
Qed.

Lemma trimEnd_last_id r c :
  isWhiteSpace c = false -> trimEnd (r ++ [c]) = r ++ [c].
Proof.
  intros Hc. unfold trimEnd. rewrite rev_app_distr. simpl. rewrite Hc.
  change (c :: rev r) with (rev [c] ++ rev r).
  by rewrite <- rev_app_distr, rev_involutive.
Qed.

Lemma trim_idem s : trim (trim s) = trim s.
Proof.
  destruct (trim s) as [|c r] eqn:Ht; [done|].
  pose proof (trim_first s c r Ht) as Hc.
  unfold trim at 1. rewrite (trimStart_head_id c r Hc).
  destruct (exists_last (l := c :: r) ltac:(done)) as (r' & d & Hrd).
  rewrite Hrd. apply trimEnd_last_id.
  apply (trim_last s r' d). by rewrite Ht.
Qed.

Lemma trim_not_blank s : trim s <> [] -> blank (trim s) = false.
Proof.
  intros Hne. destruct (trim s) as [|c r] eqn:Ht; [done|].
  simpl. by rewrite (trim_first s c r Ht).
Qed.

End TrimFacts.

(** ** The sort *)

Section SortFacts.
Context {A : Type} (comparefn : A -> A -> Z).

Lemma sortInsert_perm x l : sortInsert comparefn x l ≡ₚ x :: l.
Proof.
  induction l as [|y l IH]; simpl; [done|].
  destruct (comparefn x y <=? 0); [done|].
  rewrite IH. apply perm_swap.
Qed.

Lemma arraySort_perm l : arraySort comparefn l ≡ₚ l.
Proof.
  induction l as [|x l IH]; simpl; [done|].
  by rewrite sortInsert_perm, IH.
Qed.

(** The comparator orders by a key. *)
Context (key : A -> Z).
Hypothesis comparefn_key : forall a b, comparefn a b <= 0 <-> key a <= key b.

Lemma sortInsert_sorted x l :
  Sorted (byKey key) l -> Sorted (byKey key) (sortInsert comparefn x l).
Proof.
  induction l as [|y l IH]; intros Hs; simpl.
  - by repeat constructor.
  - destruct (comparefn x y <=? 0) eqn:E.
    + constructor; [done|]. constructor. apply comparefn_key. lia.
    + assert (Hyx : byKey key y x).
      { unfold byKey. destruct (Z.le_gt_cases (key x) (key y)) as [H|H];
          [apply comparefn_key in H|]; lia. }
      inversion Hs as [|? ? Hl Hhd]; subst.
      constructor; [by apply IH|].
      destruct l as [|z l']; simpl; [by constructor|].
      destruct (comparefn x z <=? 0); constructor; [done|].
      by inversion Hhd.
Qed.

Lemma arraySort_sorted l : Sorted (byKey key) (arraySort comparefn l).
Proof.
  induction l as [|x l IH]; simpl; [constructor|].
  by apply sortInsert_sorted.
Qed.

(** Inserting does not disturb the order among items of one key: the new
    item only passes items of a smaller key. *)
Lemma sortInsert_filter k x l :
  filter (fun a => key a = k) (sortInsert comparefn x l)
  = filter (fun a => key a = k) (x :: l).
Proof.
  induction l as [|y l IH]; simpl; [done|].
  destruct (comparefn x y <=? 0) eqn:E; [done|].
  rewrite filter_cons, IH, !filter_cons.
  destruct (decide (key y = k)) as [Hy|Hy]; [|done].
  destruct (decide (key x = k)) as [Hx|Hx]; [|done].
  assert (comparefn x y <= 0) by (apply comparefn_key; lia). lia.
Qed.

Lemma arraySort_filter k l :
  filter (fun a => key a = k) (arraySort comparefn l)
  = filter (fun a => key a = k) l.
Proof.
  induction l as [|x l IH]; simpl; [done|].
  rewrite sortInsert_filter, !filter_cons. by rewrite IH.
Qed.

Lemma arraySort_stable l : StableSortBy key l (arraySort comparefn l).
Proof.
  split; [apply arraySort_sorted | intros k; apply arraySort_filter].
Qed.

End SortFacts.

Section StableSortFacts.
Context {A : Type} (key : A -> Z).

Lemma byKey_trans : Transitive (byKey key).
Proof. intros a b c. unfold byKey. lia. Qed.

(** Two lists ordered by the key that agree on every key class are equal. *)
Lemma sorted_classes_eq l1 l2 :
  StronglySorted (byKey key) l1 -> StronglySorted (byKey key) l2 ->
  (forall k, filter (fun a => key a = k) l1 = filter (fun a => key a = k) l2) ->
  l1 = l2.
Proof.
  revert l2. induction l1 as [|x l1 IH]; intros [|y l2] H1 H2 Hf.
  - done.
  - specialize (Hf (key y)). by rewrite filter_nil, filter_cons_True in Hf.
  - specialize (Hf (key x)). by rewrite filter_nil, filter_cons_True in Hf.
  - apply StronglySorted_cons in H1 as [Hx H1].
    apply StronglySorted_cons in H2 as [Hy H2].
    rewrite Forall_forall in Hx, Hy.
    assert (Hxy : key x <= key y).
    { assert (Hin : y ∈ filter (fun a => key a = key y) (x :: l1)).
      { rewrite (Hf (key y)), filter_cons_True by done. left. }
      apply list_elem_of_filter in Hin as [_ Hin].
      apply elem_of_cons in Hin as [->|Hin]; [lia|]. by apply Hx. }
    assert (Hyx : key y <= key x).
    { assert (Hin : x ∈ filter (fun a => key a = key x) (y :: l2)).
      { rewrite <- (Hf (key x)), filter_cons_True by done. left. }
      apply list_elem_of_filter in Hin as [_ Hin].
      apply elem_of_cons in Hin as [->|Hin]; [lia|]. by apply Hy. }
    assert (Hk : key y = key x) by lia.
    pose proof (Hf (key x)) as Hh.
    rewrite !filter_cons_True in Hh by done.
    injection Hh as <- _.
    f_equal. apply IH; [done..|].
    intros k. specialize (Hf k). rewrite !filter_cons in Hf.
    destruct (decide (key x = k)); [by injection Hf|done].
Qed.

(** A list has one stable sort by a key. *)
Lemma StableSortBy_unique l l1 l2 :
  StableSortBy key l l1 -> StableSortBy key l l2 -> l1 = l2.
Proof.
  intros [Hs1 Hf1] [Hs2 Hf2].
  apply sorted_classes_eq.
  - apply Sorted.Sorted_StronglySorted; [apply byKey_trans | exact Hs1].
  - apply Sorted.Sorted_StronglySorted; [apply byKey_trans | exact Hs2].
  - intros k. by rewrite Hf1, Hf2.
Qed.

End StableSortFacts.

(** ** The ordered view *)

Lemma timeOf_specKey t : timeOf t = specKey t.
Proof.
  unfold timeOf, specKey. destruct (createdAt t) as [s n| | |]; simpl; [|done..].
  destruct (Z.eqb_spec s 0); congruence.
Qed.

Lemma compareCreatedAt_specKey a b :
  compareCreatedAt a b <= 0 <-> specKey a <= specKey b.
Proof. unfold compareCreatedAt. rewrite !timeOf_specKey. lia. Qed.

Lemma todosAsc_stable todos : StableSortBy specKey todos (todosAsc todos).
Proof. apply arraySort_stable, compareCreatedAt_specKey. Qed.

Lemma todosAsc_strongly_sorted todos :
  StronglySorted (byKey specKey) (todosAsc todos).
Proof.
  apply Sorted.Sorted_StronglySorted; [apply byKey_trans|].
  apply todosAsc_stable.
Qed.

Lemma StronglySorted_lookup_lt {A} (R : relation A) (l : list A) i j a b :
  StronglySorted R l -> l !! i = Some a -> l !! j = Some b ->
  (i < j)%nat -> R a b.
Proof.
  intros Hs. revert i j. induction Hs as [|x l Hs IH Hx]; intros i j Hi Hj Hlt.
  - done.
  - destruct j as [|j]; [lia|]. simpl in Hj.
    destruct i as [|i]; simpl in Hi.
    + injection Hi as <-. rewrite Forall_forall in Hx.
      apply Hx. by eapply list_elem_of_lookup_2.
    + apply (IH i j); [done..|lia].
Qed.

Lemma resolved_seconds_sorted (l : list Todo) :
  StronglySorted (byKey specKey) l ->
  StronglySorted Z.le ((fun m : Z * Z => m.1) <$> resolvedMarkers l).
Proof.
  unfold resolvedMarkers.
  induction 1 as [|x l Hs IH Hx]; simpl; [constructor|].
  destruct (markerOf x) as [[s n]|] eqn:Hm; simpl; [|done].
  constructor; [done|].
  rewrite Forall_forall in Hx. apply Forall_forall. intros s' Hin.
  apply list_elem_of_fmap in Hin as ([s2 n2] & -> & Hin).
  apply list_elem_of_omap in Hin as (y & Hy & Hmy).
  specialize (Hx y Hy). unfold byKey, specKey in Hx.
  unfold markerOf in Hm, Hmy.
  destruct (createdAt x); [|done..]. destruct (createdAt y); [|done..].
  simpl. congruence.
Qed.

(** C1: for every local collection, [todosAsc] is the stable sort of the
    collection ascending by the key "seconds of the resolved creation
    marker, or 0 when the marker is unresolved or absent": the result is
    ordered by that key, items of equal key stay in the order the
    collection had them, and no other list has these two properties. *)
Theorem todosAsc_is_stable_sort (todos : list Todo) :
  StableSortBy specKey todos (todosAsc todos) /\
  (forall l, StableSortBy specKey todos l -> l = todosAsc todos).
Proof.
  split; [apply todosAsc_stable|].
  intros l Hl. eapply StableSortBy_unique; [exact Hl | apply todosAsc_stable].
Qed.

(** C2 as stated fails: the comparator reads [seconds] only, so within one
    second the order of the collection is kept whatever the nanoseconds. *)
Lemma todosAsc_subsecond_not_sorted :
  ~ Sorted markerLe (resolvedMarkers (todosAsc sameSecondTodos)).
Proof.
  assert (E : resolvedMarkers (todosAsc sameSecondTodos)
              = [(1700000000, 900000000); (1700000000, 100000000)])
    by reflexivity.
  rewrite E. intros H.
  inversion H as [|? ? _ Hhd]; subst.
  inversion Hhd as [|? ? Hle]; subst.
  destruct Hle as [Hlt | [_ Hle]]; simpl in *; lia.
Qed.

(** C2, amended: for every local collection, the items of [todosAsc] with
    a resolved creation marker have non-decreasing marker seconds; the
    sub-second part of the marker is not compared. *)
Theorem todosAsc_resolved_seconds_sorted (todos : list Todo) :
  Sorted Z.le ((fun m : Z * Z => m.1) <$> resolvedMarkers (todosAsc todos)).
Proof.
  apply StronglySorted_Sorted, resolved_seconds_sorted,
    todosAsc_strongly_sorted.
Qed.

Example todosAsc_epochTodos :
  id <$> todosAsc epochTodos = [lit "r1"; lit "r0"; lit "u"].
Proof. reflexivity. Qed.

(** C3 as stated fails: an unresolved marker counts as second 0, so a
    resolved marker at or before the epoch is not placed after it. *)
Lemma todosAsc_unresolved_not_first : ~ UnresolvedFirst (todosAsc epochTodos).
Proof.
  intros H.
  specialize (H 2%nat 0%nat
    (mkTodo (lit "u") (lit "pending") personal false NullAt None)
    (mkTodo (lit "r1") (lit "before epoch") business false
       (TimestampAt (-1) 0) None)
    eq_refl eq_refl eq_refl eq_refl).
  lia.
Qed.

(** C3, amended: in [todosAsc], every item whose creation marker is
    unresolved or absent comes before every item whose resolved marker has
    positive seconds. *)
Theorem todosAsc_unresolved_before_positive
    (todos : list Todo) (i j : nat) (a b : Todo) (s n : Z) :
  todosAsc todos !! i = Some a ->
  todosAsc todos !! j = Some b ->
  resolved a = false ->
  createdAt b = TimestampAt s n ->
  0 < s ->
  (i < j)%nat.
Proof.
  intros Hi Hj Ha Hb Hs.
  assert (Hka : specKey a = 0).
  { unfold specKey, resolved in *. by destruct (createdAt a). }
  assert (Hkb : specKey b = s) by (unfold specKey; by rewrite Hb).
  destruct (Nat.lt_trichotomy i j) as [Hlt|[Heq|Hgt]]; [done| |].
  - subst j. rewrite Hi in Hj. injection Hj as ->.
    unfold resolved in Ha. by rewrite Hb in Ha.
  - pose proof (StronglySorted_lookup_lt _ _ j i b a
                  (todosAsc_strongly_sorted todos) Hj Hi Hgt) as Hle.
    unfold byKey in Hle. lia.
Qed.

Lemma todosAsc_unresolved_before_positive_witness :
  id <$> todosAsc pendingThenStamped = [lit "u"; lit "r"] /\ (0 < 1)%nat.
Proof.
  split; [reflexivity|].
  apply (todosAsc_unresolved_before_positive pendingThenStamped 0 1
           (mkTodo (lit "u") (lit "pending") personal false FieldValueAt None)
           (mkTodo (lit "r") (lit "stamped") business false
              (TimestampAt 1700000000 0) None)
           1700000000 0); [reflexivity..|lia].
Defined.

(** C10: computing [todosAsc] sorts a fresh copy: the array held in the
    state is left as it was, every other array too, and the array returned
    holds a permutation of the collection. *)
Theorem todosAscHeap_sorts_a_copy
    (h : heap) (todosRef : positive) (xs : list Todo) :
  h !! todosRef = Some xs ->
  exists c h',
    todosAscHeap h todosRef = Some (c, h') /\
    c <> todosRef /\
    h' !! todosRef = Some xs /\
    (forall a, a <> c -> h' !! a = h !! a) /\
    h' !! c = Some (todosAsc xs) /\
    todosAsc xs ≡ₚ xs.
Proof.
  intros Hx. set (c := fresh (dom h)).
  assert (Hc : c <> todosRef).
  { intros Heq. apply (is_fresh (dom h)). fold c. rewrite Heq.
    apply elem_of_dom. by eexists. }
  exists c, (<[c := todosAsc xs]> h).
  unfold todosAscHeap, spread, sortInPlace. rewrite Hx. simpl. fold c.
  rewrite lookup_insert_eq, insert_insert_eq.
  split_and!; [done|done| | | |].
  - by rewrite lookup_insert_ne.
  - intros a Ha. by rewrite lookup_insert_ne.
  - by rewrite lookup_insert_eq.
  - apply arraySort_perm.
Qed.

Lemma todosAscHeap_sorts_a_copy_witness :
  exists c h',
    todosAscHeap {[ 1%positive := pendingThenStamped ]} 1 = Some (c, h') /\
    c <> 1%positive /\
    h' !! 1%positive = Some pendingThenStamped /\
    (forall a, a <> c ->
       h' !! a = ({[ 1%positive := pendingThenStamped ]} : heap) !! a) /\
    h' !! c = Some (todosAsc pendingThenStamped) /\
    todosAsc pendingThenStamped ≡ₚ pendingThenStamped.
Proof.
  apply (todosAscHeap_sorts_a_copy {[ 1%positive := pendingThenStamped ]} 1
           pendingThenStamped).
  reflexivity.
Defined.

(** Without the copy the array of the state would have been reordered. *)
Example sortInPlace_reorders_its_argument :
  exists h',
    sortInPlace compareCreatedAt {[ 1%positive := pendingThenStamped ]} 1
    = Some (1%positive, h') /\
    h' !! 1%positive = Some (todosAsc pendingThenStamped) /\
    todosAsc pendingThenStamped <> pendingThenStamped.
Proof.
  eexists. split_and!; [reflexivity | apply lookup_insert_eq | discriminate].
Qed.

(** ** The snapshot listener *)

Lemma deliver_app evs1 evs2 st :
  deliver (evs1 ++ evs2) st = deliver evs2 (deliver evs1 st).
Proof. apply foldl_app. Qed.

Lemma deliver_failed_todos k st :
  todos (deliver (replicate k SnapshotFailed) st) = todos st.
Proof.
  unfold deliver. revert st.
  induction k as [|k IH]; intros st; simpl; [done|]. by rewrite IH.
Qed.

Lemma CarriesDoc_todoOfDoc d t : CarriesDoc d t <-> t = todoOfDoc d.
Proof.
  split.
  - intros (Hc & Hk & Hd & Ha & Hb & Hn & Hs).
    destruct t as [i c k dn a b]. simpl in *. subst. unfold todoOfDoc.
    f_equal. destruct (dataId (docData d)) as [i'|]; [by apply Hs|by apply Hn].
  - intros ->. unfold CarriesDoc, todoOfDoc. simpl.
    split_and!; try done.
    + by intros ->.
    + by intros i ->.
Qed.

Lemma Forall2_CarriesDoc docs : Forall2 CarriesDoc docs (map todoOfDoc docs).
Proof.
  induction docs as [|d docs IH]; simpl; constructor; [|exact IH].
  by apply CarriesDoc_todoOfDoc.
Qed.

(** C4: after a snapshot event delivering the documents [docs], the local
    collection holds, in order, one item for each document and nothing
    else, each item with the fields of its document, whatever the
    collection held before; so after any sequence of snapshot events the
    collection is that of the last snapshot delivered, and when that one
    is empty the view is empty. *)
Theorem snapshot_replaces_collection
    (st : State) (evs : list SnapshotEvent) (k : nat)
    (docs : list DocSnapshot) (now : jsstring) :
  Forall2 CarriesDoc docs (todos (onSnapshotNext docs now st)) /\
  (forall t, In t (todos (onSnapshotNext docs now st)) <->
             exists d, In d docs /\ CarriesDoc d t) /\
  Forall2 CarriesDoc docs
    (todos (deliver (evs ++ SnapshotNext docs now :: replicate k SnapshotFailed)
              st)) /\
  todosAsc (todos (deliver (evs ++ [SnapshotNext [] now]) st)) = [].
Proof.
  split_and!.
  - apply Forall2_CarriesDoc.
  - intros t. simpl. rewrite in_map_iff. split.
    + intros (d & <- & Hd). exists d. split; [done|].
      by apply CarriesDoc_todoOfDoc.
    + intros (d & Hd & Ht). exists d. split; [|done].
      symmetry. by apply CarriesDoc_todoOfDoc.
  - rewrite deliver_app.
    change (deliver (SnapshotNext docs now :: replicate k SnapshotFailed)
              (deliver evs st))
      with (deliver (replicate k SnapshotFailed)
              (onSnapshotNext docs now (deliver evs st))).
    rewrite deliver_failed_todos. apply Forall2_CarriesDoc.
  - by rewrite deliver_app.
Qed.

(** ** The write handlers *)

Lemma categoryString_truthy c : truthy (categoryString c) = true.
Proof. by destruct c. Qed.

Lemma addTodo_blank db autoId st :
  blank (inputContent st) = true -> addTodo db autoId st = Return.
Proof.
  intros Hb. unfold addTodo. by rewrite truthy_trim, Hb.
Qed.

Lemma addTodo_unconfigured autoId st : addTodo None autoId st = Return.
Proof.
  unfold addTodo. simpl.
  by destruct (negb (truthy (trim (inputContent st)))),
    (negb (truthy (categoryString (inputCategory st)))).
Qed.

Lemma addTodo_issues f autoId st :
  blank (inputContent st) = false ->
  addTodo (Some f) autoId st =
  Await (specCreate autoId (inputContent st) (inputCategory st) (userId st))
    (fun r =>
       match r with
       | Fulfilled => Do (SetInputContent []) Return
       | Rejected error =>
           Do (ConsoleError (lit "Error adding todo:") error)
             (Do (SetSyncStatus (lit "Failed to add todo. Check console."))
                Return)
       end).
Proof.
  intros Hb. unfold addTodo.
  by rewrite truthy_trim, Hb, categoryString_truthy.
Qed.

Lemma updateContent_blank db todoId newContent :
  blank newContent = true -> updateContent db todoId newContent = Return.
Proof.
  intros Hb. unfold updateContent. rewrite truthy_trim, Hb. simpl.
  by rewrite orb_true_r.
Qed.

Lemma no_slash_no_double s :
  forallb (fun c => negb (c =? 47)%N) s = true -> includes s (lit "//") = false.
Proof.
  change (lit "//") with [47%N; 47%N].
  induction s as [|c s IH]; [done|].
  intros [Hc Hs]%andb_prop. apply negb_true_iff in Hc.
  cbn [includes startsWith]. rewrite (IH Hs), N.eqb_sym, Hc. done.
Qed.

Lemma no_slash_one_segment s :
  forallb (fun c => negb (c =? 47)%N) s = true -> splitSlash s = [s].
Proof.
  induction s as [|c s IH]; [done|].
  intros [Hc Hs]%andb_prop. simpl.
  apply negb_true_iff in Hc. by rewrite Hc, (IH Hs).
Qed.

(** An identifier of one segment names a document of the collection. *)
Lemma docIn_oneSegment todoId :
  oneSegment todoId = true ->
  docIn todosPath todoId = Some (mkDocRef todosPath todoId).
Proof.
  intros [Ht Hs]%andb_prop. unfold docIn, pathSegments.
  rewrite Ht, (no_slash_no_double _ Hs), (no_slash_one_segment _ Hs).
  simpl. by rewrite Ht.
Qed.

(** Whatever the identifier, the document is below the collection. *)
Lemma docIn_below path ref :
  docIn todosPath path = Some ref ->
  exists segs, pathSegments path = segs ++ [refId ref] /\
               refPath ref = todosPath ++ segs.
Proof.
  unfold docIn. destruct (negb (truthy path)); [done|].
  destruct (includes path (lit "//")); [done|].
  destruct (Nat.even _) eqn:He; [|done]. intros [= <-].
  cbn [refPath refId]. revert He.
  generalize (pathSegments path) as segs. intros segs.
  induction segs as [|x l _] using rev_ind; [discriminate|]. intros _.
  exists l. destruct (l ++ [x]) as [|y l'] eqn:E; [by destruct l|].
  rewrite <- E. by rewrite last_last, removelast_last.
Qed.

(** What [doc] does with identifiers that are not one segment. *)
Example docIn_examples :
  docIn todosPath [] = None /\
  docIn todosPath (lit "a/b") = None /\
  docIn todosPath (lit "a//b/c") = None /\
  docIn todosPath (lit "a/b/c")
  = Some (mkDocRef (todosPath ++ [lit "a"; lit "b"]) (lit "c")) /\
  docIn todosPath (lit "/doc-1/")
  = Some (mkDocRef todosPath (lit "doc-1")).
Proof. split_and!; reflexivity. Qed.

(** A removal under an identifier [doc] refuses issues nothing and
    reports the failure; a toggle or an edit under it ends on the
    exception, with nothing issued and the state untouched. *)
Example refused_identifier :
  outcome (Some FirestoreInstance) (Remove (lit "a/b")) milkState
    (fun _ => Fulfilled) milkState
  = (setSyncStatus (lit "Failed to delete todo. Check console.") milkState,
     []) /\
  outcome (Some FirestoreInstance) (EditContent (lit "a/b") (lit "x"))
    milkState (fun _ => Fulfilled) milkState
  = (milkState, []).
Proof. split; reflexivity. Qed.

Lemma removeTodo_issues f todoId ref :
  docIn todosPath todoId = Some ref ->
  removeTodo (Some f) todoId =
  Await (DeleteDoc ref)
    (fun r =>
       match r with
       | Fulfilled => Return
       | Rejected error =>
           Do (ConsoleError (lit "Error deleting todo:") error)
             (Do (SetSyncStatus (lit "Failed to delete todo. Check console."))
                Return)
       end).
Proof.
  intros Hd. unfold removeTodo.
  change (getTodosCollectionRef (Some f)) with (Some todosPath).
  simpl. by rewrite Hd.
Qed.

Lemma removeTodo_refused f todoId :
  docIn todosPath todoId = None ->
  removeTodo (Some f) todoId =
  Do (ConsoleError (lit "Error deleting todo:") invalidArgument)
    (Do (SetSyncStatus (lit "Failed to delete todo. Check console."))
       Return).
Proof.
  intros Hd. unfold removeTodo.
  change (getTodosCollectionRef (Some f)) with (Some todosPath).
  simpl. by rewrite Hd.
Qed.

Lemma toggleDone_issues f todo ref :
  docIn todosPath (id todo) = Some ref ->
  toggleDone (Some f) todo =
  Await (SetDoc ref (<["done"%string := VBool (negb (done todo))]> ∅) true)
    (fun r =>
       match r with
       | Fulfilled => Return
       | Rejected error =>
           Do (ConsoleError (lit "Error updating todo done status:") error)
             (Do (SetSyncStatus
                    (lit "Failed to update todo status. Check console."))
                Return)
       end).
Proof.
  intros Hd. unfold toggleDone.
  change (getTodosCollectionRef (Some f)) with (Some todosPath).
  simpl. by rewrite Hd.
Qed.

Lemma toggleDone_refused f todo :
  docIn todosPath (id todo) = None ->
  toggleDone (Some f) todo = Throw invalidArgument.
Proof.
  intros Hd. unfold toggleDone.
  change (getTodosCollectionRef (Some f)) with (Some todosPath).
  simpl. by rewrite Hd.
Qed.

Lemma updateContent_issues f todoId newContent ref :
  blank newContent = false ->
  docIn todosPath todoId = Some ref ->
  updateContent (Some f) todoId newContent =
  Await
    (SetDoc ref (<["content"%string := VString (trim newContent)]> ∅) true)
    (fun r =>
       match r with
       | Fulfilled => Return
       | Rejected error =>
           Do (ConsoleError (lit "Error updating todo content:") error)
             (Do (SetSyncStatus
                    (lit "Failed to update todo content. Check console."))
                Return)
       end).
Proof.
  intros Hb Hd. unfold updateContent. rewrite truthy_trim, Hb.
  change (getTodosCollectionRef (Some f)) with (Some todosPath).
  simpl. by rewrite Hd.
Qed.

Lemma updateContent_refused f todoId newContent :
  blank newContent = false ->
  docIn todosPath todoId = None ->
  updateContent (Some f) todoId newContent = Throw invalidArgument.
Proof.
  intros Hb Hd. unfold updateContent. rewrite truthy_trim, Hb.
  change (getTodosCollectionRef (Some f)) with (Some todosPath).
  simpl. by rewrite Hd.
Qed.

(** C5: when the content typed is empty or white space only, the add
    operation returns at once: no call is issued to the store and the
    component state is left as it is. *)
Theorem addTodo_blank_no_create
    (db : option Firestore) (autoId : jsstring) (st st1 : State)
    (remote : RemoteCall -> WriteResult) :
  blank (inputContent st) = true ->
  exec remote (addTodo db autoId st) st1 = (st1, []).
Proof. intros Hb. by rewrite addTodo_blank. Qed.

Lemma addTodo_blank_no_create_witness :
  exec (fun _ => Fulfilled)
    (addTodo (Some FirestoreInstance) (lit "doc-1") blankInputState)
    blankInputState
  = (blankInputState, []).
Proof.
  apply (addTodo_blank_no_create (Some FirestoreInstance) (lit "doc-1")
           blankInputState blankInputState (fun _ => Fulfilled)).
  reflexivity.
Defined.

(** C6: when the new content is empty or white space only, the content
    update returns at once: no call is issued to the store and the
    component state, the items' contents included, is left as it is. *)
Theorem updateContent_blank_noop
    (db : option Firestore) (todoId newContent : jsstring) (st1 : State)
    (remote : RemoteCall -> WriteResult) :
  blank newContent = true ->
  exec remote (updateContent db todoId newContent) st1 = (st1, []).
Proof. intros Hb. by rewrite updateContent_blank. Qed.

Lemma updateContent_blank_noop_witness :
  exec (fun _ => Fulfilled)
    (updateContent (Some FirestoreInstance) (lit "doc-1") (lit "   "))
    blankInputState
  = (blankInputState, []).
Proof.
  apply (updateContent_blank_noop (Some FirestoreInstance) (lit "doc-1")
           (lit "   ") blankInputState (fun _ => Fulfilled)).
  reflexivity.
Defined.

(** The typing that comes before the blur is another handler: it has
    already put the white space in the local copy of the item, and the
    update that does nothing leaves it there until the next snapshot. *)
Example typing_blank_then_blur :
  content <$> todos (onTodoContentChange (lit "doc-1") (lit "  ") oneItemState)
  = [lit "  "] /\
  exec (fun _ => Fulfilled)
    (updateContent (Some FirestoreInstance) (lit "doc-1") (lit "  "))
    (onTodoContentChange (lit "doc-1") (lit "  ") oneItemState)
  = (onTodoContentChange (lit "doc-1") (lit "  ") oneItemState, []).
Proof. split; reflexivity. Qed.

(** C7 as stated fails: without a configured store the add operation
    returns before any call, whatever the content. *)
Lemma addTodo_unconfigured_no_create :
  blank (inputContent milkState) = false /\
  ~ AddIssuesCreate None (lit "doc-1") milkState.
Proof.
  split; [reflexivity|].
  intros H. specialize (H (fun _ => Fulfilled) milkState).
  rewrite addTodo_unconfigured in H. discriminate H.
Qed.

(** C7, amended: when the store is configured and the content typed is not
    white space only, the add operation issues exactly one call, the create
    of a new document with the trimmed content, the selected category,
    [done] false, a server timestamp still to be assigned as [createdAt],
    and the current session identifier as [createdBy]. *)
Theorem addTodo_issues_one_create
    (db : option Firestore) (autoId : jsstring) (st : State) :
  is_Some db ->
  blank (inputContent st) = false ->
  AddIssuesCreate db autoId st.
Proof.
  intros [f ->] Hb remote st1. rewrite (addTodo_issues f autoId st Hb).
  simpl. by destruct (remote _).
Qed.

Lemma addTodo_issues_one_create_witness :
  AddIssuesCreate (Some FirestoreInstance) (lit "doc-1") milkState.
Proof.
  apply (addTodo_issues_one_create (Some FirestoreInstance) (lit "doc-1")
           milkState); [by eexists | reflexivity].
Defined.

Lemma trim_truthy_nonempty s : blank s = false -> trim s <> [].
Proof.
  intros Hb Ht. pose proof (truthy_trim s) as H. rewrite Ht, Hb in H.
  discriminate H.
Qed.


(** C9: whenever an operation of the page issues a call that writes the
    [content] field, the value written is a string that is not empty, is
    its own trimmed form and is not white space only. *)
Theorem written_content_trimmed
    (db : option Firestore) (i : Intent) (st st1 : State)
    (remote : RemoteCall -> WriteResult) (c : RemoteCall) (v : FieldValue) :
  In c (outcome db i st remote st1).2 ->
  writtenContent c = Some v ->
  exists s, v = VString s /\ s <> [] /\ trim s = s /\ blank s = false.
Proof.
  unfold outcome.
  destruct i as [autoId|todoId|todo|todoId newContent]; simpl.
  - destruct db as [f|]; [|by rewrite addTodo_unconfigured].
    destruct (blank (inputContent st)) eqn:Hb; [by rewrite addTodo_blank|].
    rewrite (addTodo_issues f autoId st Hb). simpl.
    assert (Hne := trim_truthy_nonempty _ Hb).
    destruct (remote _); simpl; intros [<-|[]];
      unfold specCreate, writtenContent; rewrite lookup_insert_eq;
      intros [= <-]; eexists;
      (split_and!; [done | done | apply trim_idem | by apply trim_not_blank]).
  - destruct db as [f|]; [|done].
    destruct (docIn todosPath todoId) as [ref|] eqn:Hd;
      [rewrite (removeTodo_issues f todoId ref Hd)
      |by rewrite (removeTodo_refused f todoId Hd)].
    simpl. destruct (remote _); simpl; by intros [<-|[]].
  - destruct db as [f|]; [|done].
    destruct (docIn todosPath (id todo)) as [ref|] eqn:Hd;
      [rewrite (toggleDone_issues f todo ref Hd)
      |by rewrite (toggleDone_refused f todo Hd)].
    simpl. destruct (remote _); simpl; intros [<-|[]]; simpl;
      by rewrite lookup_insert_ne, lookup_empty.
  - destruct db as [f|]; [|done].
    destruct (blank newContent) eqn:Hb; [by rewrite updateContent_blank|].
    destruct (docIn todosPath todoId) as [ref|] eqn:Hd;
      [rewrite (updateContent_issues f todoId newContent ref Hb Hd)
      |by rewrite (updateContent_refused f todoId newContent Hb Hd)].
    simpl. assert (Hne := trim_truthy_nonempty _ Hb).
    destruct (remote _); simpl; intros [<-|[]]; simpl;
      rewrite lookup_insert_eq; intros [= <-]; eexists;
      (split_and!; [done | done | apply trim_idem | by apply trim_not_blank]).
Qed.

Lemma written_content_trimmed_witness :
  exists s,
    VString (lit "buy milk") = VString s /\
    s <> [] /\ trim s = s /\ blank s = false.
Proof.
  apply (written_content_trimmed (Some FirestoreInstance) (Add (lit "doc-1"))
           milkState milkState (fun _ => Fulfilled)
           (specCreate (lit "doc-1") (lit " buy milk ") business
              (Some (lit "uid-1")))
           (VString (lit "buy milk"))).
  - left. reflexivity.
  - reflexivity.
Defined.

(** ** More on the ordered view *)

Lemma Sorted_byKey_ext {A} (k1 k2 : A -> Z) (l : list A) :
  (forall a, k1 a = k2 a) -> Sorted (byKey k1) l -> Sorted (byKey k2) l.
Proof.
  intros Hk. induction 1 as [|x l Hs IH Hhd]; constructor; [done|].
  destruct Hhd as [|y l' Hxy]; constructor.
  unfold byKey in *. by rewrite <- !Hk.
Qed.

(** A collection already in order is its own stable sort. *)
Lemma todosAsc_of_sorted (l : list Todo) :
  Sorted (byKey timeOf) l -> todosAsc l = l.
Proof.
  intros Hs. apply (StableSortBy_unique specKey l).
  - apply todosAsc_stable.
  - split; [|done].
    apply (Sorted_byKey_ext timeOf); [apply timeOf_specKey | exact Hs].
Qed.

Lemma todosAsc_sorted_timeOf (l : list Todo) :
  Sorted (byKey timeOf) (todosAsc l).
Proof.
  apply (Sorted_byKey_ext specKey); [intros a; by rewrite timeOf_specKey|].
  apply todosAsc_stable.
Qed.

(** X1: a collection whose items are already in non-decreasing order of
    the comparator's time is returned by [todosAsc] as it is. *)
Theorem todosAsc_keeps_sorted (todos : list Todo) :
  Sorted (byKey timeOf) todos -> todosAsc todos = todos.
Proof. apply todosAsc_of_sorted. Qed.

Lemma todosAsc_keeps_sorted_witness :
  todosAsc (todos twoItemState) = todos twoItemState.
Proof.
  apply (todosAsc_keeps_sorted (todos twoItemState)).
  repeat constructor; by vm_compute.
Defined.

(** X2: sorting the ordered view again changes nothing. *)
Theorem todosAsc_idempotent (todos : list Todo) :
  todosAsc (todosAsc todos) = todosAsc todos.
Proof. apply todosAsc_of_sorted, todosAsc_sorted_timeOf. Qed.

(** X3: while no item has a resolved creation marker, the ordered view is
    the collection in the order it has. *)
Theorem todosAsc_all_unresolved (todos : list Todo) :
  Forall (fun t => resolved t = false) todos -> todosAsc todos = todos.
Proof.
  intros Hall. apply todosAsc_of_sorted.
  assert (Hk : Forall (fun t => timeOf t = 0) todos).
  { eapply Forall_impl; [exact Hall|]. intros t Ht. simpl in Ht.
    rewrite timeOf_specKey. unfold specKey, resolved in *.
    by destruct (createdAt t). }
  clear Hall. induction Hk as [|x l Hx Hl IH]; constructor; [done|].
  destruct Hl as [|y l' Hy _]; constructor. unfold byKey. lia.
Qed.

Lemma todosAsc_all_unresolved_witness :
  todosAsc
    [ mkTodo (lit "a") (lit "one") personal false FieldValueAt None;
      mkTodo (lit "b") (lit "two") business false NullAt None;
      mkTodo (lit "c") (lit "three") personal true UndefinedAt None ]
  = [ mkTodo (lit "a") (lit "one") personal false FieldValueAt None;
      mkTodo (lit "b") (lit "two") business false NullAt None;
      mkTodo (lit "c") (lit "three") personal true UndefinedAt None ].
Proof.
  apply (todosAsc_all_unresolved
           [ mkTodo (lit "a") (lit "one") personal false FieldValueAt None;
             mkTodo (lit "b") (lit "two") business false NullAt None;
             mkTodo (lit "c") (lit "three") personal true UndefinedAt None ]).
  repeat constructor.
Defined.

(** X4: the empty-list message is shown exactly when the local collection
    is empty. *)
Theorem empty_message_iff_no_todos (st : State) :
  showsEmptyMessage st = true <-> todos st = [].
Proof.
  unfold showsEmptyMessage, todosAsc.
  rewrite Nat.eqb_eq, (Permutation_length (arraySort_perm _ (todos st))).
  by destruct (todos st).
Qed.

Section SortMap.
Context {A : Type} (comparefn : A -> A -> Z) (f : A -> A).
Hypothesis comparefn_f : forall a b, comparefn (f a) (f b) = comparefn a b.

Lemma sortInsert_map x l :
  sortInsert comparefn (f x) (map f l) = map f (sortInsert comparefn x l).
Proof.
  induction l as [|y l IH]; simpl; [done|].
  rewrite comparefn_f. destruct (comparefn x y <=? 0); simpl; [done|].
  by rewrite IH.
Qed.

Lemma arraySort_map l :
  arraySort comparefn (map f l) = map f (arraySort comparefn l).
Proof.
  induction l as [|x l IH]; simpl; [done|].
  by rewrite IH, sortInsert_map.
Qed.

End SortMap.

(** X5: typing in an item does not reorder the view: the ordered view of
    the edited collection is the edit applied to the ordered view. *)
Theorem typing_keeps_view_order (todoId value : jsstring) (st : State) :
  todosAsc (todos (onTodoContentChange todoId value st))
  = todos (onTodoContentChange todoId value
             (setTodos (todosAsc (todos st)) st)).
Proof.
  unfold onTodoContentChange, todosAsc. simpl.
  apply arraySort_map. intros a b.
  unfold compareCreatedAt, timeOf.
  by destruct (strictEq (id a) todoId), (strictEq (id b) todoId).
Qed.

(** ** Typing in an item *)

Lemma set_todos_same st : setTodos (todos st) st = st.
Proof. by destruct st. Qed.

(** X6: typing in an item touches nothing but the items: their number,
    order, identifiers and every field except [content] stay, the content
    becomes the typed value in the items with that identifier and stays in
    the others; the rest of the state is as it was. *)
Theorem typing_changes_content_only (todoId value : jsstring) (st : State) :
  Forall2 (typedOver todoId value) (todos st)
    (todos (onTodoContentChange todoId value st)) /\
  name (onTodoContentChange todoId value st) = name st /\
  inputContent (onTodoContentChange todoId value st) = inputContent st /\
  inputCategory (onTodoContentChange todoId value st) = inputCategory st /\
  userId (onTodoContentChange todoId value st) = userId st /\
  syncStatus (onTodoContentChange todoId value st) = syncStatus st.
Proof.
  split; [|done]. simpl.
  induction (todos st) as [|t l IH]; simpl; constructor; [|exact IH].
  unfold typedOver, strictEq. by destruct (bool_decide (id t = todoId)).
Qed.

(** X7: typing under an identifier no item has leaves the state as it is. *)
Theorem typing_unknown_id (todoId value : jsstring) (st : State) :
  (forall t, In t (todos st) -> id t <> todoId) ->
  onTodoContentChange todoId value st = st.
Proof.
  intros Hno. unfold onTodoContentChange.
  rewrite <- (set_todos_same st) at 3. f_equal.
  induction (todos st) as [|t l IH]; simpl; [done|].
  unfold strictEq. rewrite bool_decide_eq_false_2 by (apply Hno; by left).
  f_equal. apply IH. intros t' Ht'. apply Hno. by right.
Qed.

Lemma typing_unknown_id_witness :
  onTodoContentChange (lit "doc-9") (lit "x") twoItemState = twoItemState.
Proof.
  apply (typing_unknown_id (lit "doc-9") (lit "x") twoItemState).
  intros t [<-|[<-|[]]]; discriminate.
Defined.

(** X8: of two successive typings in the same item only the second is
    left. *)
Theorem typing_last_wins (todoId v1 v2 : jsstring) (st : State) :
  onTodoContentChange todoId v2 (onTodoContentChange todoId v1 st)
  = onTodoContentChange todoId v2 st.
Proof.
  unfold onTodoContentChange. simpl. unfold setTodos. simpl. f_equal.
  rewrite map_map. apply map_ext. intros t.
  unfold strictEq. destruct (bool_decide (id t = todoId)) eqn:E; simpl.
  - unfold strictEq. by rewrite E.
  - by rewrite E.
Qed.

(** X9: typings in items of different identifiers do not interfere: either
    order leaves the same state. *)
Theorem typing_commutes (id1 id2 v1 v2 : jsstring) (st : State) :
  id1 <> id2 ->
  onTodoContentChange id1 v1 (onTodoContentChange id2 v2 st)
  = onTodoContentChange id2 v2 (onTodoContentChange id1 v1 st).
Proof.
  intros Hne. unfold onTodoContentChange. simpl. unfold setTodos. simpl.
  f_equal. rewrite !map_map. apply map_ext. intros t. unfold strictEq.
  destruct (bool_decide (id t = id1)) eqn:E1,
    (bool_decide (id t = id2)) eqn:E2; simpl; rewrite ?E1, ?E2; try done.
  apply bool_decide_eq_true in E1, E2. congruence.
Qed.

Lemma typing_commutes_witness :
  onTodoContentChange (lit "doc-1") (lit "tea")
    (onTodoContentChange (lit "doc-2") (lit "call Eve") twoItemState)
  = onTodoContentChange (lit "doc-2") (lit "call Eve")
      (onTodoContentChange (lit "doc-1") (lit "tea") twoItemState).
Proof.
  apply (typing_commutes (lit "doc-1") (lit "doc-2") (lit "tea")
           (lit "call Eve") twoItemState).
  discriminate.
Defined.

(** ** The listener and the rest of the state *)

(** X10: whatever snapshot events arrive, the name, the input buffer, the
    selected category and the session identifier are left as they are. *)
Theorem deliver_keeps_form (evs : list SnapshotEvent) (st : State) :
  name (deliver evs st) = name st /\
  inputContent (deliver evs st) = inputContent st /\
  inputCategory (deliver evs st) = inputCategory st /\
  userId (deliver evs st) = userId st.
Proof.
  unfold deliver. revert st.
  induction evs as [|ev evs IH]; intros st; simpl; [done|].
  destruct (IH (onSnapshot ev st)) as (-> & -> & -> & ->).
  by destruct ev.
Qed.

(** ** More on the write handlers *)

Lemma blank_trim s : blank (trim s) = blank s.
Proof.
  destruct (blank s) eqn:Hb.
  - by rewrite (trim_blank s Hb).
  - apply trim_not_blank. intros Ht. apply trim_nil_blank in Ht. congruence.
Qed.

(** X11: without a configured store no operation does anything: nothing
    is called and the state, status included, is left as it is. *)
Theorem unconfigured_store_silent
    (i : Intent) (st st1 : State) (remote : RemoteCall -> WriteResult) :
  outcome None i st remote st1 = (st1, []).
Proof.
  unfold outcome. destruct i; simpl; [|done..].
  by rewrite addTodo_unconfigured.
Qed.

(** X12: white space around the text does not matter to what is done: the
    content update for a text and for its trimmed form are the same, and
    so is the add operation for an input buffer and for its trimmed form. *)
Theorem surrounding_space_ignored
    (db : option Firestore) (todoId autoId newContent : jsstring)
    (st : State) :
  updateContent db todoId (trim newContent)
  = updateContent db todoId newContent /\
  addTodo db autoId (setInputContent (trim (inputContent st)) st)
  = addTodo db autoId st.
Proof.
  split.
  - unfold updateContent. by rewrite trim_idem.
  - unfold addTodo. simpl. by rewrite trim_idem.
Qed.

(** X13: once a create has succeeded the input buffer is empty, so
    submitting the form again issues nothing. *)
Theorem resubmit_after_success
    (f : Firestore) (db : option Firestore) (autoId autoId2 : jsstring)
    (st st1 : State) (remote : RemoteCall -> WriteResult) (c : RemoteCall) :
  (outcome (Some f) (Add autoId) st remote st1).2 = [c] ->
  remote c = Fulfilled ->
  addTodo db autoId2 (outcome (Some f) (Add autoId) st remote st1).1
  = Return.
Proof.
  unfold outcome. simpl.
  destruct (blank (inputContent st)) eqn:Hb;
    [by rewrite addTodo_blank|].
  rewrite (addTodo_issues f autoId st Hb). simpl.
  destruct (remote _) eqn:Hr; simpl; intros [= <-] Hc; [|congruence].
  by apply addTodo_blank.
Qed.

Lemma resubmit_after_success_witness :
  addTodo (Some FirestoreInstance) (lit "doc-2")
    (outcome (Some FirestoreInstance) (Add (lit "doc-1")) milkState
       (fun _ => Fulfilled) milkState).1
  = Return.
Proof.
  apply (resubmit_after_success FirestoreInstance (Some FirestoreInstance)
           (lit "doc-1") (lit "doc-2") milkState milkState
           (fun _ => Fulfilled)
           (specCreate (lit "doc-1") (lit " buy milk ") business
              (Some (lit "uid-1"))));
    reflexivity.
Defined.

(** X14: a create that failed leaves the input buffer, the category and
    the session as they are when it completes, so submitting the form
    again does what a submit from the state at completion does; when
    these three are then what they were at the first submit, it issues the
    same document under the new identifier. *)
Theorem resubmit_after_failure
    (f : Firestore) (autoId autoId2 error : jsstring) (st st1 st2 : State)
    (remote remote2 : RemoteCall -> WriteResult) (c : RemoteCall) :
  (outcome (Some f) (Add autoId) st remote st1).2 = [c] ->
  remote c = Rejected error ->
  (outcome (Some f) (Add autoId2)
     (outcome (Some f) (Add autoId) st remote st1).1 remote2 st2).2
  = (outcome (Some f) (Add autoId2) st1 remote2 st2).2 /\
  (inputContent st1 = inputContent st ->
   inputCategory st1 = inputCategory st ->
   userId st1 = userId st ->
   exists path data,
     c = SetDoc (mkDocRef path autoId) data false /\
     (outcome (Some f) (Add autoId2)
        (outcome (Some f) (Add autoId) st remote st1).1 remote2 st2).2
     = [SetDoc (mkDocRef path autoId2) data false]).
Proof.
  unfold outcome. simpl.
  destruct (blank (inputContent st)) eqn:Hb;
    [by rewrite addTodo_blank|].
  rewrite (addTodo_issues f autoId st Hb). simpl.
  destruct (remote _) eqn:Hr; simpl; intros [= <-] Hc; [congruence|].
  split; [reflexivity|]. intros Hi Hk Hu.
  eexists _, _. split; [reflexivity|].
  rewrite addTodo_issues by (simpl; congruence). simpl.
  rewrite Hi, Hk, Hu. by destruct (remote2 _).
Qed.

Lemma resubmit_after_failure_witness :
  (outcome (Some FirestoreInstance) (Add (lit "doc-2"))
     (outcome (Some FirestoreInstance) (Add (lit "doc-1")) milkState
        (fun _ => Rejected (lit "unavailable")) milkState).1
     (fun _ => Fulfilled) milkState).2
  = (outcome (Some FirestoreInstance) (Add (lit "doc-2")) milkState
       (fun _ => Fulfilled) milkState).2 /\
  (inputContent milkState = inputContent milkState ->
   inputCategory milkState = inputCategory milkState ->
   userId milkState = userId milkState ->
   exists path data,
     specCreate (lit "doc-1") (lit " buy milk ") business
       (Some (lit "uid-1"))
     = SetDoc (mkDocRef path (lit "doc-1")) data false /\
     (outcome (Some FirestoreInstance) (Add (lit "doc-2"))
        (outcome (Some FirestoreInstance) (Add (lit "doc-1")) milkState
           (fun _ => Rejected (lit "unavailable")) milkState).1
        (fun _ => Fulfilled) milkState).2
     = [SetDoc (mkDocRef path (lit "doc-2")) data false]).
Proof.
  apply (resubmit_after_failure FirestoreInstance (lit "doc-1") (lit "doc-2")
           (lit "unavailable") milkState milkState milkState
           (fun _ => Rejected (lit "unavailable")) (fun _ => Fulfilled)
           (specCreate (lit "doc-1") (lit " buy milk ") business
              (Some (lit "uid-1"))));
    reflexivity.
Defined.

(** X15: every call an operation issues addresses the document that
    [doc] resolves the operation's identifier to (for the add operation,
    the document of the collection with the generated identifier).  That
    document is in the collection
    [artifacts/nextjs-todo-app/public/data/todos] or below it, and it is
    the document of that collection with the operation's identifier when
    the identifier is a single path segment. *)
Theorem calls_address_target
    (db : option Firestore) (i : Intent) (st st1 : State)
    (remote : RemoteCall -> WriteResult) (c : RemoteCall) :
  In c (outcome db i st remote st1).2 ->
  match i with
  | Add autoId => callRef c = mkDocRef todosPath autoId
  | _ => docIn todosPath (intentTarget i) = Some (callRef c)
  end /\
  (exists segs, refPath (callRef c) = todosPath ++ segs) /\
  (oneSegment (intentTarget i) = true ->
   callRef c = mkDocRef todosPath (intentTarget i)).
Proof.
  assert (Hres : forall todoId ref,
            docIn todosPath todoId = Some ref ->
            docIn todosPath todoId = Some ref /\
            (exists segs, refPath ref = todosPath ++ segs) /\
            (oneSegment todoId = true -> ref = mkDocRef todosPath todoId)).
  { intros todoId ref Hd. split_and!; [done| |].
    - destruct (docIn_below _ _ Hd) as (segs & _ & Hp). by exists segs.
    - intros Ho. rewrite (docIn_oneSegment _ Ho) in Hd. by injection Hd. }
  unfold outcome.
  destruct i as [autoId|todoId|todo|todoId newContent]; simpl.
  - destruct db as [f|]; [|by rewrite addTodo_unconfigured].
    destruct (blank (inputContent st)) eqn:Hb; [by rewrite addTodo_blank|].
    rewrite (addTodo_issues f autoId st Hb). simpl.
    destruct (remote _); simpl; intros [<-|[]];
      (split_and!; [done | by exists [] | done]).
  - destruct db as [f|]; [|done].
    destruct (docIn todosPath todoId) as [ref|] eqn:Hd;
      [rewrite (removeTodo_issues f todoId ref Hd)
      |by rewrite (removeTodo_refused f todoId Hd)].
    destruct (Hres _ _ Hd) as (_ & H2 & H3).
    simpl. destruct (remote _); simpl; intros [<-|[]];
      (split_and!; [done | exact H2 | exact H3]).
  - destruct db as [f|]; [|done].
    destruct (docIn todosPath (id todo)) as [ref|] eqn:Hd;
      [rewrite (toggleDone_issues f todo ref Hd)
      |by rewrite (toggleDone_refused f todo Hd)].
    destruct (Hres _ _ Hd) as (_ & H2 & H3).
    simpl. destruct (remote _); simpl; intros [<-|[]];
      (split_and!; [done | exact H2 | exact H3]).
  - destruct db as [f|]; [|done].
    destruct (blank newContent) eqn:Hb; [by rewrite updateContent_blank|].
    destruct (docIn todosPath todoId) as [ref|] eqn:Hd;
      [rewrite (updateContent_issues f todoId newContent ref Hb Hd)
      |by rewrite (updateContent_refused f todoId newContent Hb Hd)].
    destruct (Hres _ _ Hd) as (_ & H2 & H3).
    simpl. destruct (remote _); simpl; intros [<-|[]];
      (split_and!; [done | exact H2 | exact H3]).
Qed.

Lemma calls_address_target_witness :
  docIn todosPath (lit "doc-1")
  = Some (callRef (DeleteDoc (mkDocRef todosPath (lit "doc-1")))) /\
  (exists segs,
     refPath (callRef (DeleteDoc (mkDocRef todosPath (lit "doc-1"))))
     = todosPath ++ segs) /\
  (oneSegment (lit "doc-1") = true ->
   callRef (DeleteDoc (mkDocRef todosPath (lit "doc-1")))
   = mkDocRef todosPath (lit "doc-1")).
Proof.
  apply (calls_address_target (Some FirestoreInstance) (Remove (lit "doc-1"))
           milkState milkState (fun _ => Fulfilled)).
  left. reflexivity.
Defined.

(** X16: the create writes a whole document of exactly the five fields
    [content], [category], [done], [createdAt], [createdBy]; toggling and
    editing write with [merge] exactly one field, [done] and [content];
    removing issues a delete. *)
Theorem calls_write_expected_fields
    (db : option Firestore) (i : Intent) (st st1 : State)
    (remote : RemoteCall -> WriteResult) (c : RemoteCall) :
  In c (outcome db i st remote st1).2 ->
  callShape c =
  match i with
  | Add _ =>
      Some (false,
            {[ "content"%string; "category"%string; "done"%string;
               "createdAt"%string; "createdBy"%string ]})
  | Remove _ => None
  | Toggle _ => Some (true, {[ "done"%string ]})
  | EditContent _ _ => Some (true, {[ "content"%string ]})
  end.
Proof.
  unfold outcome.
  destruct i as [autoId|todoId|todo|todoId newContent]; simpl.
  - destruct db as [f|]; [|by rewrite addTodo_unconfigured].
    destruct (blank (inputContent st)) eqn:Hb; [by rewrite addTodo_blank|].
    rewrite (addTodo_issues f autoId st Hb). simpl.
    destruct (remote _); simpl; intros [<-|[]]; simpl;
      rewrite !dom_insert_L, dom_empty_L; do 2 f_equal; set_solver.
  - destruct db as [f|]; [|done].
    destruct (docIn todosPath todoId) as [ref|] eqn:Hd;
      [rewrite (removeTodo_issues f todoId ref Hd)
      |by rewrite (removeTodo_refused f todoId Hd)].
    simpl. destruct (remote _); simpl; by intros [<-|[]].
  - destruct db as [f|]; [|done].
    destruct (docIn todosPath (id todo)) as [ref|] eqn:Hd;
      [rewrite (toggleDone_issues f todo ref Hd)
      |by rewrite (toggleDone_refused f todo Hd)].
    simpl. destruct (remote _); simpl; intros [<-|[]]; simpl;
      rewrite dom_insert_L, dom_empty_L; do 2 f_equal; set_solver.
  - destruct db as [f|]; [|done].
    destruct (blank newContent) eqn:Hb; [by rewrite updateContent_blank|].
    destruct (docIn todosPath todoId) as [ref|] eqn:Hd;
      [rewrite (updateContent_issues f todoId newContent ref Hb Hd)
      |by rewrite (updateContent_refused f todoId newContent Hb Hd)].
    simpl. destruct (remote _); simpl; intros [<-|[]]; simpl;
      rewrite dom_insert_L, dom_empty_L; do 2 f_equal; set_solver.
Qed.

Lemma calls_write_expected_fields_witness :
  callShape
    (SetDoc (mkDocRef todosPath (lit "doc-1"))
       (<["done"%string := VBool true]> ∅) true)
  = Some (true, {[ "done"%string ]}).
Proof.
  apply (calls_write_expected_fields (Some FirestoreInstance)
           (Toggle (mkTodo (lit "doc-1") (lit "buy milk") business false
                      (TimestampAt 1700000000 0) (Some (lit "uid-1"))))
           milkState milkState (fun _ => Fulfilled)).
  left. reflexivity.
Defined.

(** ** The status badge *)

Lemma startsWith_app sub r : startsWith sub (sub ++ r) = true.
Proof.
  induction sub as [|c sub IH]; simpl; [by destruct r|].
  by rewrite N.eqb_refl, IH.
Qed.

Lemma includes_prefix sub r : includes (sub ++ r) sub = true.
Proof.
  destruct (sub ++ r) eqn:E; simpl; rewrite <- E, startsWith_app; done.
Qed.

Lemma outcome_rejected_status
    (db : option Firestore) (i : Intent) (st st1 : State)
    (remote : RemoteCall -> WriteResult) (c : RemoteCall) (error : jsstring) :
  (outcome db i st remote st1).2 = [c] ->
  remote c = Rejected error ->
  syncStatus (outcome db i st remote st1).1 = failureStatus i.
Proof.
  unfold outcome.
  destruct i as [autoId|todoId|todo|todoId newContent]; simpl.
  - destruct db as [f|]; [|by rewrite addTodo_unconfigured].
    destruct (blank (inputContent st)) eqn:Hb; [by rewrite addTodo_blank|].
    rewrite (addTodo_issues f autoId st Hb). simpl.
    destruct (remote _) eqn:Hr; simpl; intros [= <-] Hc; congruence.
  - destruct db as [f|]; [|done].
    destruct (docIn todosPath todoId) as [ref|] eqn:Hd;
      [rewrite (removeTodo_issues f todoId ref Hd)
      |by rewrite (removeTodo_refused f todoId Hd)].
    simpl. destruct (remote _) eqn:Hr; simpl; intros [= <-] Hc; congruence.
  - destruct db as [f|]; [|done].
    destruct (docIn todosPath (id todo)) as [ref|] eqn:Hd;
      [rewrite (toggleDone_issues f todo ref Hd)
      |by rewrite (toggleDone_refused f todo Hd)].
    simpl. destruct (remote _) eqn:Hr; simpl; intros [= <-] Hc; congruence.
  - destruct db as [f|]; [|done].
    destruct (blank newContent) eqn:Hb; [by rewrite updateContent_blank|].
    destruct (docIn todosPath todoId) as [ref|] eqn:Hd;
      [rewrite (updateContent_issues f todoId newContent ref Hb Hd)
      |by rewrite (updateContent_refused f todoId newContent Hb Hd)].
    simpl. destruct (remote _) eqn:Hr; simpl; intros [= <-] Hc; congruence.
Qed.

(** X17: after a write that failed, the badge has the yellow classes, not
    the red ones: none of the four failure messages contains "Error". *)
Theorem failed_write_badge_is_yellow
    (db : option Firestore) (i : Intent) (st st1 : State)
    (remote : RemoteCall -> WriteResult) (c : RemoteCall) (error : jsstring) :
  (outcome db i st remote st1).2 = [c] ->
  remote c = Rejected error ->
  badgeClass (syncStatus (outcome db i st remote st1).1)
  = lit "bg-yellow-100 text-yellow-700".
Proof.
  intros Hc Hr. rewrite (outcome_rejected_status _ _ _ _ _ _ _ Hc Hr).
  by destruct i.
Qed.

Lemma failed_write_badge_is_yellow_witness :
  badgeClass
    (syncStatus
       (outcome (Some FirestoreInstance) (Remove (lit "doc-1")) milkState
          (fun _ => Rejected (lit "permission-denied")) milkState).1)
  = lit "bg-yellow-100 text-yellow-700".
Proof.
  apply (failed_write_badge_is_yellow (Some FirestoreInstance)
           (Remove (lit "doc-1")) milkState milkState
           (fun _ => Rejected (lit "permission-denied"))
           (DeleteDoc (mkDocRef todosPath (lit "doc-1")))
           (lit "permission-denied"));
    reflexivity.
Defined.

(** X18: after a snapshot the badge is green whatever the time string is,
    and after a subscription error it is red, whatever came before. *)
Theorem snapshot_badge
    (evs : list SnapshotEvent) (docs : list DocSnapshot) (now : jsstring)
    (st : State) :
  badgeClass (syncStatus (deliver (evs ++ [SnapshotNext docs now]) st))
  = lit "bg-green-100 text-green-700" /\
  badgeClass (syncStatus (deliver (evs ++ [SnapshotFailed]) st))
  = lit "bg-red-100 text-red-700".
Proof.
  rewrite !deliver_app. split; [|reflexivity].
  assert (E : syncStatus (deliver [SnapshotNext docs now] (deliver evs st))
              = lit "Synced" ++ (lit " (" ++ now ++ lit ")"))
    by reflexivity.
  rewrite E. unfold badgeClass. by rewrite includes_prefix.
Qed.

(** ** The stored name *)

(** X19: a name that is not empty is stored by the name effect, and the
    next mount, with authentication configured, shows it again. *)
Theorem name_round_trip
    (a : Auth) (n : jsstring) (st st0 : State) (stored : option jsstring) :
  n <> [] ->
  name (mountEffect (Some a) (nameEffect (onNameChange n st) stored) st0).1
  = n.
Proof.
  intros Hn. unfold nameEffect, mountEffect. simpl.
  destruct n as [|c n]; [done|]. reflexivity.
Qed.

Lemma name_round_trip_witness :
  name
    (mountEffect (Some AuthInstance)
       (nameEffect (onNameChange (lit "Ada") initialState) None)
       initialState).1
  = lit "Ada".
Proof.
  apply (name_round_trip AuthInstance (lit "Ada") initialState initialState
           None).
  discriminate.
Defined.

(** X20: emptying the name field does not empty the stored name: after a
    name was stored and the field was cleared, the next mount shows the
    stored name again. *)
Theorem cleared_name_comes_back
    (a : Auth) (n : jsstring) (st st' st0 : State)
    (stored : option jsstring) :
  n <> [] ->
  name
    (mountEffect (Some a)
       (nameEffect (onNameChange [] st')
          (nameEffect (onNameChange n st) stored))
       st0).1
  = n.
Proof.
  intros Hn. unfold nameEffect, mountEffect. simpl.
  destruct n as [|c n]; [done|]. reflexivity.
Qed.

Lemma cleared_name_comes_back_witness :
  name
    (mountEffect (Some AuthInstance)
       (nameEffect (onNameChange [] twoItemState)
          (nameEffect (onNameChange (lit "Ada") initialState) None))
       initialState).1
  = lit "Ada".
Proof.
  apply (cleared_name_comes_back AuthInstance (lit "Ada") initialState
           twoItemState initialState None).
  discriminate.
Defined.

(** X21: when authentication is not configured the mount effect stops at
    its first test: the stored name is not loaded whatever it is, no
    listener is registered, the badge is red and no snapshot subscription
    can start from the state it leaves, as no session is known. *)
Theorem mount_without_auth
    (db : option Firestore) (stored : option jsstring) (st : State) :
  userId st = None ->
  name (mountEffect None stored st).1 = name st /\
  (mountEffect None stored st).2 = false /\
  badgeClass (syncStatus (mountEffect None stored st).1)
  = lit "bg-red-100 text-red-700" /\
  snapshotEffectSubscribes db (mountEffect None stored st).1 = false.
Proof.
  intros Hu. split_and!; try reflexivity.
  unfold snapshotEffectSubscribes. simpl. rewrite Hu. simpl.
  by rewrite orb_true_r.
Qed.

Lemma mount_without_auth_witness :
  name (mountEffect None (Some (lit "Ada")) initialState).1
  = name initialState /\
  (mountEffect None (Some (lit "Ada")) initialState).2 = false /\
  badgeClass (syncStatus (mountEffect None (Some (lit "Ada")) initialState).1)
  = lit "bg-red-100 text-red-700" /\
  snapshotEffectSubscribes (Some FirestoreInstance)
    (mountEffect None (Some (lit "Ada")) initialState).1 = false.
Proof.
  apply (mount_without_auth (Some FirestoreInstance) (Some (lit "Ada"))
           initialState).
  reflexivity.
Defined.

(** ** Authentication and the subscription *)

(** X22: when the listener is given a user, no sign-in is started, the
    session identifier is that of the user, and the snapshot effect
    subscribes exactly when the store is configured and the identifier is
    not the empty string; items, name and form are untouched. *)
Theorem auth_user_starts_sync
    (db : option Firestore) (uid : jsstring) (st : State) :
  (onAuthStateChanged (Some uid) st).2 = false /\
  userId (onAuthStateChanged (Some uid) st).1 = Some uid /\
  snapshotEffectSubscribes db (onAuthStateChanged (Some uid) st).1
  = bool_decide (is_Some db) && truthy uid /\
  todos (onAuthStateChanged (Some uid) st).1 = todos st /\
  name (onAuthStateChanged (Some uid) st).1 = name st /\
  inputContent (onAuthStateChanged (Some uid) st).1 = inputContent st.
Proof.
  split_and!; try reflexivity.
  unfold snapshotEffectSubscribes. simpl.
  destruct db as [f|], (truthy uid); reflexivity.
Qed.

(** X23: when the listener is given no user it starts a sign-in; if that
    fails while no session is known, the state keeps no session, the badge
    is red and the snapshot effect does not subscribe, so the list stays as
    it was. *)
Theorem sign_in_failure_blocks_sync
    (db : option Firestore) (error : jsstring) (st : State) :
  userId st = None ->
  (onAuthStateChanged None st).2 = true /\
  userId (signInSettled (Rejected error) (onAuthStateChanged None st).1)
  = None /\
  badgeClass
    (syncStatus
       (signInSettled (Rejected error) (onAuthStateChanged None st).1))
  = lit "bg-red-100 text-red-700" /\
  snapshotEffectSubscribes db
    (signInSettled (Rejected error) (onAuthStateChanged None st).1)
  = false /\
  todos (signInSettled (Rejected error) (onAuthStateChanged None st).1)
  = todos st.
Proof.
  intros Hu. split_and!; try done.
  unfold snapshotEffectSubscribes. simpl. rewrite Hu. simpl.
  by rewrite orb_true_r.
Qed.

Lemma sign_in_failure_blocks_sync_witness :
  (onAuthStateChanged None initialState).2 = true /\
  userId
    (signInSettled (Rejected (lit "network"))
       (onAuthStateChanged None initialState).1)
  = None /\
  badgeClass
    (syncStatus
       (signInSettled (Rejected (lit "network"))
          (onAuthStateChanged None initialState).1))
  = lit "bg-red-100 text-red-700" /\
  snapshotEffectSubscribes (Some FirestoreInstance)
    (signInSettled (Rejected (lit "network"))
       (onAuthStateChanged None initialState).1)
  = false /\
  todos
    (signInSettled (Rejected (lit "network"))
       (onAuthStateChanged None initialState).1)
  = todos initialState.
Proof.
  apply (sign_in_failure_blocks_sync (Some FirestoreInstance) (lit "network")
           initialState).
  reflexivity.
Defined.

(** ** The ordered view and the order of delivery *)

Lemma NoDup_map_inj_on {A B} (f : A -> B) (l : list A) x y :
  NoDup (map f l) -> x ∈ l -> y ∈ l -> f x = f y -> x = y.
Proof.
  induction l as [|a l IH]; simpl; intros Hnd Hx Hy Hf; [by inversion Hx|].
  apply NoDup_cons in Hnd as [Ha Hnd].
  apply elem_of_cons in Hx as [->|Hx]; apply elem_of_cons in Hy as [->|Hy].
  - done.
  - destruct Ha. rewrite Hf. by apply list_elem_of_In, in_map, list_elem_of_In.
  - destruct Ha. rewrite <- Hf.
    by apply list_elem_of_In, in_map, list_elem_of_In.
  - by apply IH.
Qed.

(** X24: when no two items share the time the comparator reads, the
    ordered view does not depend on the order in which the collection
    holds the items. *)
Theorem distinct_times_order_free (l l' : list Todo) :
  NoDup (map timeOf l) -> l ≡ₚ l' -> todosAsc l = todosAsc l'.
Proof.
  intros Hnd Hp.
  apply (StronglySorted_unique_strong (byKey timeOf)).
  - intros x1 x2 H1 H2 R1 R2. unfold byKey in R1, R2.
    unfold todosAsc in H1, H2. rewrite arraySort_perm in H1, H2.
    rewrite <- Hp in H2.
    apply (NoDup_map_inj_on timeOf l); [done..|lia].
  - apply Sorted.Sorted_StronglySorted;
      [apply byKey_trans | apply todosAsc_sorted_timeOf].
  - apply Sorted.Sorted_StronglySorted;
      [apply byKey_trans | apply todosAsc_sorted_timeOf].
  - unfold todosAsc. by rewrite !arraySort_perm.
Qed.

Lemma distinct_times_order_free_witness :
  todosAsc (todos twoItemState) = todosAsc (rev (todos twoItemState)).
Proof.
  apply (distinct_times_order_free (todos twoItemState)
           (rev (todos twoItemState))).
  - apply (bool_decide_unpack _). by vm_compute.
  - apply perm_swap.
Defined.
